(** * String case converters: a shallow embedding of [src/string/converters.ts]

    The module converts identifiers between nine naming styles by way of
    a token sequence: a tokenizer per style, a formatter per style and a
    factory that composes them into the 81 named conversion functions.

    Strings are modelled as [string] (sequences of [ascii] code units).
    The embedding covers ASCII text: the case mappings [toLowerCase] and
    [toUpperCase] act on the letters [A-Z] and [a-z] and leave every other
    code unit alone, and the whitespace class of the regular expression
    [\s] is the ASCII one (tab, line feed, vertical tab, form feed,
    carriage return, space). *)

From Stdlib Require Import Bool List Arith NArith Lia Ascii String.
From stdpp Require Import base option gmap strings.

Import ListNotations.
Local Open Scope string_scope.
Local Open Scope list_scope.

(** ** Character classes of the regular expressions *)

Module Char.

Definition code (c : ascii) : N := N_of_ascii c.

Definition between (lo hi : N) (c : ascii) : bool :=
  (lo <=? code c)%N && (code c <=? hi)%N.

(** [[A-Z]] *)
Definition isUpper : ascii -> bool := between 65 90.
(** [[a-z]] *)
Definition isLower : ascii -> bool := between 97 122.
(** [[0-9]] *)
Definition isDigit : ascii -> bool := between 48 57.
(** [[a-z0-9]] *)
Definition isLowerOrDigit (c : ascii) : bool := isLower c || isDigit c.
(** [[\s]] *)
Definition isSpace (c : ascii) : bool := between 9 13 c || (code c =? 32)%N.

Definition toLower (c : ascii) : ascii :=
  if isUpper c then ascii_of_N (code c + 32) else c.

Definition toUpper (c : ascii) : ascii :=
  if isLower c then ascii_of_N (code c - 32) else c.

End Char.

(** ** The string methods the converters call *)

Fixpoint mapChars (f : ascii -> ascii) (s : string) : string :=
  match s with
  | EmptyString => EmptyString
  | String c rest => String (f c) (mapChars f rest)
  end.

(** [s.toLowerCase()] *)
Definition toLowerCase : string -> string := mapChars Char.toLower.

(** [s.toUpperCase()] *)
Definition toUpperCase : string -> string := mapChars Char.toUpper.

(** [s.charAt(n)]: the one-character string at index [n], or the empty
    string when [n] is out of range. *)
Definition charAt (n : nat) (s : string) : string :=
  match String.get n s with
  | Some c => String c EmptyString
  | None => EmptyString
  end.

(** [s.slice(n)] for a non-negative [n]: the string without its first [n]
    characters. *)
Fixpoint slice (n : nat) (s : string) : string :=
  match n, s with
  | O, _ => s
  | S _, EmptyString => EmptyString
  | S k, String _ rest => slice k rest
  end.

(** [tokens.join(sep)] *)
Fixpoint join (sep : string) (tokens : list string) : string :=
  match tokens with
  | [] => EmptyString
  | [t] => t
  | t :: rest => t +:+ sep +:+ join sep rest
  end.

(** [tokens.map((word, idx) => ...)]: the callback also receives the index. *)
Fixpoint mapi_from {A B : Type} (i : nat) (f : A -> nat -> B) (l : list A)
  : list B :=
  match l with
  | [] => []
  | x :: rest => f x i :: mapi_from (S i) f rest
  end.

Definition mapi {A B : Type} : (A -> nat -> B) -> list A -> list B :=
  mapi_from 0.

(** Prepends a character to the first fragment of a split in progress. *)
Definition pushFront (c : ascii) (frags : list string) : list string :=
  match frags with
  | [] => [String c EmptyString]
  | f :: fs => String c f :: fs
  end.

(** [s.split(sep)] with a string separator.  [skip] counts the characters
    of a separator occurrence that are still to be stepped over, so that
    occurrences are found left to right without overlap. *)
Fixpoint splitFrom (sep : string) (skip : nat) (s : string) : list string :=
  match s with
  | EmptyString => [EmptyString]
  | String c rest =>
      match skip with
      | S k => splitFrom sep k rest
      | O =>
          if String.prefix sep s
          then EmptyString :: splitFrom sep (String.length sep - 1) rest
          else pushFront c (splitFrom sep 0 rest)
      end
  end.

(** With the empty separator JavaScript splits into single code units. *)
Fixpoint splitChars (s : string) : list string :=
  match s with
  | EmptyString => []
  | String c rest => String c EmptyString :: splitChars rest
  end.

Definition split (s sep : string) : list string :=
  match sep with
  | EmptyString => splitChars s
  | _ => splitFrom sep 0 s
  end.

(** [s.split(/[\s]/)]: a cut at every whitespace character. *)
Fixpoint splitSpace (s : string) : list string :=
  match s with
  | EmptyString => [EmptyString]
  | String c rest =>
      if Char.isSpace c then EmptyString :: splitSpace rest
      else pushFront c (splitSpace rest)
  end.

(** [s.replace(/([a-z0-9])([A-Z])/g, "$1 $2")]: the scan resumes after the
    two characters of a match. *)
Fixpoint replaceLowerUpper (s : string) : string :=
  match s with
  | EmptyString => EmptyString
  | String a tl =>
      match tl with
      | String b rest =>
          if Char.isLowerOrDigit a && Char.isUpper b
          then String a (String " " (String b (replaceLowerUpper rest)))
          else String a (replaceLowerUpper tl)
      | EmptyString => String a EmptyString
      end
  end.

(** [s.replace(/([A-Z])([A-Z][a-z])/g, "$1 $2")]: the scan resumes after
    the three characters of a match. *)
Fixpoint replaceUpperWord (s : string) : string :=
  match s with
  | EmptyString => EmptyString
  | String a tl =>
      match tl with
      | String b (String c rest) =>
          if Char.isUpper a && Char.isUpper b && Char.isLower c
          then String a (String " " (String b (String c (replaceUpperWord rest))))
          else String a (replaceUpperWord tl)
      | _ => String a (replaceUpperWord tl)
      end
  end.

(** ** converters.ts *)

Inductive NullableString : Type :=
| Null
| Undefined
| Str (s : string).

(** [input ?? ""] *)
Definition safeString (input : NullableString) : string :=
  match input with
  | Str s => s
  | Null | Undefined => EmptyString
  end.

Definition tokenizeCamelPascal (str : string) : list string :=
  map toLowerCase (splitSpace (replaceUpperWord (replaceLowerUpper str))).

Definition tokenizeSeparator (str separator : string) : list string :=
  map toLowerCase (split str separator).

Definition tokenizeFlat (str : string) : list string := [toLowerCase str].

Definition capitalize (word : string) : string :=
  toUpperCase (charAt 0 word) +:+ slice 1 word.

Definition toCamel (tokens : list string) : string :=
  join "" (mapi (fun word idx =>
                   if Nat.eqb idx 0 then word else capitalize word) tokens).

Definition toPascal (tokens : list string) : string :=
  join "" (map capitalize tokens).

Definition toSnake (tokens : list string) : string := join "_" tokens.

Definition toScreamingSnake (tokens : list string) : string :=
  toUpperCase (join "_" tokens).

Definition toKebab (tokens : list string) : string := join "-" tokens.

Definition toDot (tokens : list string) : string := join "." tokens.

Definition toPath (tokens : list string) : string := join "/" tokens.

Definition toUpper (tokens : list string) : string :=
  toUpperCase (join "" tokens).

Definition toLower (tokens : list string) : string :=
  toLowerCase (join "" tokens).

Inductive CaseType : Type :=
| camel | pascal | snake | screaming | kebab | dot | path | upper | lower.

Definition tokenizeByCase (caseType : CaseType) : string -> list string :=
  match caseType with
  | camel => tokenizeCamelPascal
  | pascal => tokenizeCamelPascal
  | snake => fun str => tokenizeSeparator str "_"
  | screaming => fun str => tokenizeSeparator (toLowerCase str) "_"
  | kebab => fun str => tokenizeSeparator str "-"
  | dot => fun str => tokenizeSeparator str "."
  | path => fun str => tokenizeSeparator str "/"
  | upper => fun str => tokenizeFlat str
  | lower => fun str => tokenizeFlat str
  end.

Definition formatByCase (caseType : CaseType) : list string -> string :=
  match caseType with
  | camel => toCamel
  | pascal => toPascal
  | snake => toSnake
  | screaming => toScreamingSnake
  | kebab => toKebab
  | dot => toDot
  | path => toPath
  | upper => toUpper
  | lower => toLower
  end.

Definition tokenize (input : string) (caseType : CaseType) : list string :=
  tokenizeByCase caseType input.

Definition format (tokens : list string) (caseType : CaseType) : string :=
  formatByCase caseType tokens.

#[global] Instance CaseType_eq_dec : EqDecision CaseType.
Proof. solve_decision. Defined.

(** [!str] on a string: true exactly for the empty string. *)
Definition isEmpty (s : string) : bool :=
  match s with
  | EmptyString => true
  | String _ _ => false
  end.

Definition createConverter (fromCase toCase : CaseType)
  (input : NullableString) : string :=
  let str := safeString input in
  if isEmpty str then ""
  else if bool_decide (fromCase = toCase) then str
  else format (tokenize str fromCase) toCase.

(** The name of a style, as the string literal of the [CaseType] union. *)
Definition caseName (c : CaseType) : string :=
  match c with
  | camel => "camel"
  | pascal => "pascal"
  | snake => "snake"
  | screaming => "screaming"
  | kebab => "kebab"
  | dot => "dot"
  | path => "path"
  | upper => "upper"
  | lower => "lower"
  end.

Definition cases : list CaseType :=
  [camel; pascal; snake; screaming; kebab; dot; path; upper; lower].

(** [`${from}To${to.charAt(0).toUpperCase() + to.slice(1)}`] *)
Definition fnName (from to : CaseType) : string :=
  caseName from +:+ "To" +:+
  (toUpperCase (charAt 0 (caseName to)) +:+ slice 1 (caseName to)).

(** The [converters] object after the two nested [forEach] loops: each
    iteration assigns one property, a later assignment to the same name
    replacing an earlier one. *)
Definition converters : gmap string (NullableString -> string) :=
  foldl (fun acc from =>
           foldl (fun acc' to =>
                    <[fnName from to := createConverter from to]> acc')
                 acc cases)
        ∅ cases.

(** A destructured export [const { name } = converters]; a name that was
    never assigned is [undefined], hence the option. *)
Definition exported (name : string) : option (NullableString -> string) :=
  converters !! name.

Definition camelToWords (input : NullableString) : list string :=
  tokenizeCamelPascal (safeString input).
Definition pascalToWords (input : NullableString) : list string :=
  tokenizeCamelPascal (safeString input).
Definition snakeToWords (input : NullableString) : list string :=
  tokenizeSeparator (safeString input) "_".
Definition screamingToWords (input : NullableString) : list string :=
  tokenizeSeparator (toLowerCase (safeString input)) "_".
Definition kebabToWords (input : NullableString) : list string :=
  tokenizeSeparator (safeString input) "-".
Definition dotToWords (input : NullableString) : list string :=
  tokenizeSeparator (safeString input) ".".
Definition pathToWords (input : NullableString) : list string :=
  tokenizeSeparator (safeString input) "/".
Definition upperToWords (input : NullableString) : list string :=
  tokenizeFlat (safeString input).
Definition lowerToWords (input : NullableString) : list string :=
  tokenizeFlat (safeString input).

Definition wordsToCamel := toCamel.
Definition wordsToPascal := toPascal.
Definition wordsToSnake := toSnake.
Definition wordsToScreaming := toScreamingSnake.
Definition wordsToKebab := toKebab.
Definition wordsToDot := toDot.
Definition wordsToPath := toPath.
Definition wordsToUpper := toUpper.
Definition wordsToLower := toLower.

(** The public tokenizer of a style, [<style>ToWords]. *)
Definition toWords (c : CaseType) : NullableString -> list string :=
  match c with
  | camel => camelToWords
  | pascal => pascalToWords
  | snake => snakeToWords
  | screaming => screamingToWords
  | kebab => kebabToWords
  | dot => dotToWords
  | path => pathToWords
  | upper => upperToWords
  | lower => lowerToWords
  end.

(** ** Reference definitions, written from the documented behaviour *)

(** Nullish input becomes the empty string, a string is left as it is. *)
Definition normalize (x : NullableString) : string :=
  match x with
  | Null => ""
  | Undefined => ""
  | Str s => s
  end.

(** Removal of leading and of trailing whitespace, as [s.trim()] does. *)
Fixpoint trimStart (s : string) : string :=
  match s with
  | EmptyString => EmptyString
  | String c rest => if Char.isSpace c then trimStart rest else s
  end.

Fixpoint trimEnd (s : string) : string :=
  match s with
  | EmptyString => EmptyString
  | String c rest =>
      match trimEnd rest with
      | EmptyString => if Char.isSpace c then EmptyString else String c EmptyString
      | kept => String c kept
      end
  end.

Definition trim (s : string) : string := trimEnd (trimStart s).

(** The styles whose words are joined by a separator character. *)
Definition separatorStyles : list CaseType :=
  [snake; screaming; kebab; dot; path].

Fixpoint allChars (p : ascii -> bool) (s : string) : bool :=
  match s with
  | EmptyString => true
  | String c rest => p c && allChars p rest
  end.

(** A token made of the characters [a-z] and [0-9] only; none of the
    separators [_ - . /] is among them. *)
Definition lowerAlnum (t : string) : Prop :=
  allChars Char.isLowerOrDigit t = true.

(** A token that lowercasing leaves unchanged. *)
Definition isLowercase (t : string) : Prop := toLowerCase t = t.

(** "First character uppercased, rest unchanged." *)
Definition capitalized (word : string) : string :=
  match word with
  | EmptyString => EmptyString
  | String c rest => String (Char.toUpper c) rest
  end.

(** Concatenation with no separator. *)
Definition concatAll (words : list string) : string :=
  fold_right String.append EmptyString words.

(** The camel join rule: the first token as it is, every later token
    capitalized, all concatenated with no separator. *)
Definition camelJoin (tokens : list string) : string :=
  match tokens with
  | [] => EmptyString
  | first :: others => first +:+ concatAll (map capitalized others)
  end.

(** The two boundary rules of the camel/pascal tokenizer, read at the
    character [a] followed by [rest]: a lowercase letter or digit
    followed by an uppercase letter ... *)
Definition lowerThenUpper (a : ascii) (rest : string) : bool :=
  match rest with
  | String b _ => Char.isLowerOrDigit a && Char.isUpper b
  | EmptyString => false
  end.

(** ... and an uppercase letter followed by an uppercase letter and a
    lowercase letter. *)
Definition upperThenWord (a : ascii) (rest : string) : bool :=
  match rest with
  | String b rest' =>
      Char.isUpper a && Char.isUpper b &&
      match rest' with
      | String c _ => Char.isLower c
      | EmptyString => false
      end
  | EmptyString => false
  end.

(** A word boundary lies between [a] and the first character of [rest]. *)
Definition boundaryAfter (a : ascii) (rest : string) : bool :=
  lowerThenUpper a rest || upperThenWord a rest.

(** The fragments of a string cut at the word boundaries, and nowhere
    else. *)
Fixpoint fragments (s : string) : list string :=
  match s with
  | EmptyString => [EmptyString]
  | String a rest =>
      if boundaryAfter a rest
      then String a EmptyString :: fragments rest
      else pushFront a (fragments rest)
  end.

(** The fragments of a string cut at the word boundaries and at every
    whitespace character, which is dropped. *)
Fixpoint fragmentsOrSpaces (s : string) : list string :=
  match s with
  | EmptyString => [EmptyString]
  | String a rest =>
      if Char.isSpace a then EmptyString :: fragmentsOrSpaces rest
      else if boundaryAfter a rest
      then String a EmptyString :: fragmentsOrSpaces rest
      else pushFront a (fragmentsOrSpaces rest)
  end.

(** The camel/pascal tokenizer that cuts at the inserted boundaries only. *)
Definition boundaryTokens (s : string) : list string :=
  map toLowerCase (fragments s).

(** The camel/pascal tokenizer that also cuts at whitespace. *)
Definition boundaryOrSpaceTokens (s : string) : list string :=
  map toLowerCase (fragmentsOrSpaces s).

(** A space inserted after every character at which [here] holds: what a
    global replace by ["$1 $2"] amounts to when matches cannot overlap. *)
Fixpoint insertSpaces (here : ascii -> string -> bool) (s : string) : string :=
  match s with
  | EmptyString => EmptyString
  | String a rest =>
      if here a rest then String a (String " " (insertSpaces here rest))
      else String a (insertSpaces here rest)
  end.

(** ** Vocabulary for the properties of the converters *)

(** The separator character of a style, for the styles that have one. *)
Definition separatorOf (style : CaseType) : option ascii :=
  match style with
  | snake | screaming => Some "_"%char
  | kebab => Some "-"%char
  | dot => Some "."%char
  | path => Some "/"%char
  | camel | pascal | upper | lower => None
  end.


(** Number of occurrences of a character. *)
Fixpoint countChar (d : ascii) (s : string) : nat :=
  match s with
  | EmptyString => 0
  | String c rest =>
      if Ascii.eqb c d then S (countChar d rest) else countChar d rest
  end.

(** The string without the characters that satisfy [p]. *)
Fixpoint removeChars (p : ascii -> bool) (s : string) : string :=
  match s with
  | EmptyString => EmptyString
  | String c rest =>
      if p c then removeChars p rest else String c (removeChars p rest)
  end.

(** A word that survives a trip through camel or pascal case: a
    lowercase letter followed by at least one more character, all of
    them lowercase letters or digits. *)
Definition camelWord (t : string) : Prop :=
  match t with
  | String c (String d rest) =>
      Char.isLower c = true /\ allChars Char.isLowerOrDigit (String d rest) = true
  | _ => False
  end.

(** Token sequences that a style represents without loss. *)
Definition wellFormed (style : CaseType) (tokens : list string) : Prop :=
  match style with
  | snake | screaming | kebab | dot | path =>
      tokens <> [] /\ Forall lowerAlnum tokens
  | camel =>
      match tokens with
      | first :: others =>
          first <> "" /\ lowerAlnum first /\ Forall camelWord others
      | [] => False
      end
  | pascal => tokens <> [] /\ Forall camelWord tokens
  | upper | lower =>
      match tokens with
      | [t] => lowerAlnum t
      | _ => False
      end
  end.




(** Case analysis on the 256 values of a code unit. *)
Ltac each_ascii c := destruct c as [[|] [|] [|] [|] [|] [|] [|] [|]].

(** ** Sanity checks on concrete inputs *)

Example camelToSnake_example :
  createConverter camel snake (Str "myVariableName") = "my_variable_name".
Proof. vm_compute. reflexivity. Qed.

Example snakeToCamel_example :
  createConverter snake camel (Str "my_variable_name") = "myVariableName".
Proof. vm_compute. reflexivity. Qed.

Example acronym_example :
  tokenizeCamelPascal "parseXMLDoc2Go" = ["parse"; "xml"; "doc2"; "go"].
Proof. vm_compute. reflexivity. Qed.

Example split_examples :
  split "a_b__c_" "_" = ["a"; "b"; ""; "c"; ""] /\
  split "" "_" = [""] /\
  split "a--b-c" "--" = ["a"; "b-c"] /\
  split "abc" "" = ["a"; "b"; "c"].
Proof. vm_compute. repeat split. Qed.

Example exported_example :
  (exported "kebabToScreaming" ≫= fun f => Some (f (Str "my-var-name")))
  = Some "MY_VAR_NAME".
Proof. vm_compute. reflexivity. Qed.

(** ** The registry of named converters *)

(** Every one of the 81 generated names is bound to the converter of its
    own pair of styles: no two pairs share a name. *)
Lemma exported_fnName (from to : CaseType) :
  exported (fnName from to) = Some (createConverter from to).
Proof.
  unfold exported, converters.
  generalize createConverter as mk. intros mk.
  destruct from, to; vm_compute; reflexivity.
Qed.

Lemma createConverter_nullish (from to : CaseType) (x : NullableString) :
  safeString x = "" -> createConverter from to x = "".
Proof. unfold createConverter. intros ->. reflexivity. Qed.

Lemma createConverter_identity (style : CaseType) (x : NullableString) :
  createConverter style style x = safeString x.
Proof.
  unfold createConverter.
  destruct (safeString x) as [|c rest] eqn:E; simpl; [reflexivity|].
  rewrite bool_decide_eq_true_2; reflexivity.
Qed.

(** ** Nullish input and the identity conversions *)

(** C3. For every ordered pair of the nine styles the generated name is
    bound to a function, and that function returns the empty string on
    [null] and on [undefined]. *)
Theorem C3_nullish_input_gives_empty_string (from to : CaseType) :
  exists f : NullableString -> string,
    exported (fnName from to) = Some f /\ f Null = "" /\ f Undefined = "".
Proof.
  exists (createConverter from to).
  split; [apply exported_fnName|].
  split; apply createConverter_nullish; reflexivity.
Qed.

(** C4. For every style the identity conversion, applied to any input
    (nullish included), returns the normalized input. *)
Theorem C4_identity_is_normalize (style : CaseType) (x : NullableString) :
  exists f : NullableString -> string,
    exported (fnName style style) = Some f /\ f x = normalize x.
Proof.
  exists (createConverter style style).
  split; [apply exported_fnName|].
  rewrite createConverter_identity. destruct x; reflexivity.
Qed.

(** The identity conversion does not trim: a string with a leading and a
    trailing space comes back with both, whereas trimming removes them. *)
Lemma C5_identity_does_not_trim :
  ~ (forall (style : CaseType) (s : string),
        createConverter style style (Str s) = trim s).
Proof.
  intros H. specialize (H camel " a "). vm_compute in H. discriminate H.
Qed.

(** C5, as the code has it. Each of the nine identity conversions
    returns its string input exactly as given, surrounding whitespace
    included: the tokenizer and the formatter of the style are not run,
    and nothing is trimmed. *)
Theorem C5_identity_returns_input_verbatim (style : CaseType) (s : string) :
  exists f : NullableString -> string,
    exported (fnName style style) = Some f /\ f (Str s) = s.
Proof.
  exists (createConverter style style).
  split; [apply exported_fnName|].
  apply createConverter_identity.
Qed.

(** Running the tokenizer and the formatter of one style is not the
    identity in general, so the fast path is observable. *)
Example identity_skips_round_trip :
  createConverter snake snake (Str "Some_Name") = "Some_Name" /\
  format (tokenize "Some_Name" snake) snake = "some_name".
Proof. vm_compute. split; reflexivity. Qed.

(** ** The flat styles *)

(** C7. For the styles upper and lower the tokenizer returns exactly one
    token, the whole input lowercased, whatever the input is. *)
Theorem C7_flat_tokenizer_single_token (style : CaseType) (s : string) :
  In style [upper; lower] ->
  tokenize s style = [toLowerCase s] /\ length (tokenize s style) = 1.
Proof.
  intros [<- | [<- | []]]; split; reflexivity.
Qed.

Lemma C7_flat_tokenizer_single_token_witness :
  tokenize "HELLO WORLD_x" upper = ["hello world_x"] /\
  length (tokenize "HELLO WORLD_x" upper) = 1.
Proof.
  apply (C7_flat_tokenizer_single_token upper "HELLO WORLD_x").
  simpl. left. reflexivity.
Defined.

(** ** Concrete scenarios *)

(** C8. The export [kebabToScreaming] exists and maps ["my-var-name"] to
    ["MY_VAR_NAME"]. *)
Theorem C8_kebabToScreaming_example :
  (fun f => f (Str "my-var-name")) <$> exported "kebabToScreaming"
  = Some "MY_VAR_NAME".
Proof. vm_compute. reflexivity. Qed.

(** ** Empty input of the public tokenizers *)

(** C9. Each of the nine [<style>ToWords] functions returns the sequence
    made of one empty token on the empty string, on [null] and on
    [undefined]. *)
Theorem C9_toWords_empty_input (style : CaseType) :
  toWords style (Str "") = [""] /\
  toWords style Null = [""] /\
  toWords style Undefined = [""].
Proof. destruct style; repeat split. Qed.

(** ** Basic facts about the string methods *)

Lemma append_nil_l (s : string) : "" +:+ s = s.
Proof. reflexivity. Qed.

Lemma append_cons (c : ascii) (s t : string) :
  String c s +:+ t = String c (s +:+ t).
Proof. reflexivity. Qed.

Lemma append_nil_r (s : string) : s +:+ "" = s.
Proof.
  induction s as [|c s IH]; [reflexivity|].
  rewrite append_cons, IH. reflexivity.
Qed.

Lemma join_cons_cons (sep t u : string) (rest : list string) :
  join sep (t :: u :: rest) = t +:+ sep +:+ join sep (u :: rest).
Proof. reflexivity. Qed.

Lemma join_empty_separator (words : list string) :
  join "" words = concatAll words.
Proof.
  induction words as [|t [|u rest] IH].
  - reflexivity.
  - simpl. rewrite append_nil_r. reflexivity.
  - rewrite join_cons_cons, IH, append_nil_l. reflexivity.
Qed.

Lemma capitalize_capitalized (word : string) :
  capitalize word = capitalized word.
Proof. destruct word as [|c rest]; reflexivity. Qed.

(** ** The camel formatter *)

Lemma mapi_from_later (i : nat) (tokens : list string) :
  mapi_from (S i)
    (fun word idx => if Nat.eqb idx 0 then word else capitalize word) tokens
  = map capitalized tokens.
Proof.
  revert i. induction tokens as [|t rest IH]; intros i; simpl.
  - reflexivity.
  - rewrite IH, capitalize_capitalized. reflexivity.
Qed.

Lemma toCamel_camelJoin (tokens : list string) :
  toCamel tokens = camelJoin tokens.
Proof.
  unfold toCamel. rewrite join_empty_separator.
  destruct tokens as [|first others]; [reflexivity|].
  unfold mapi. simpl mapi_from.
  rewrite mapi_from_later. reflexivity.
Qed.

(** C6. On tokens that are already lowercase the camel formatter returns
    the first token as it is, followed by every later token with its
    first character uppercased and the rest unchanged, with no separator
    in between. *)
Theorem C6_toCamel_join_rule (tokens : list string) :
  Forall isLowercase tokens -> toCamel tokens = camelJoin tokens.
Proof. intros _. apply toCamel_camelJoin. Qed.

Lemma C6_toCamel_join_rule_witness :
  toCamel ["my"; "variable"; "name"] = camelJoin ["my"; "variable"; "name"].
Proof.
  apply (C6_toCamel_join_rule ["my"; "variable"; "name"]).
  repeat constructor.
Defined.

Example toCamel_example :
  toCamel ["my"; "variable"; "name"] = "myVariableName" /\
  toCamel ["a"; ""; "b"] = "aB" /\
  toCamel [] = "".
Proof. vm_compute. repeat split. Qed.

(** ** Character facts, by enumeration of the 256 code units *)

Lemma toLower_idempotent (c : ascii) :
  Char.toLower (Char.toLower c) = Char.toLower c.
Proof. each_ascii c; reflexivity. Qed.

Lemma toLower_underscore (c : ascii) :
  Char.toLower c = "_"%char <-> c = "_"%char.
Proof. each_ascii c; vm_compute; split; intros H; solve [reflexivity | discriminate H]. Qed.

Lemma isLowerOrDigit_toLower (c : ascii) :
  Char.isLowerOrDigit c = true -> Char.toLower c = c.
Proof. each_ascii c; vm_compute; intros H; solve [reflexivity | discriminate H]. Qed.

Lemma isLowerOrDigit_toLower_toUpper (c : ascii) :
  Char.isLowerOrDigit c = true -> Char.toLower (Char.toUpper c) = c.
Proof. each_ascii c; vm_compute; intros H; solve [reflexivity | discriminate H]. Qed.

Lemma isLowerOrDigit_not_separator (c : ascii) :
  Char.isLowerOrDigit c = true ->
  c <> "_"%char /\ c <> "-"%char /\ c <> "."%char /\ c <> "/"%char.
Proof.
  each_ascii c; vm_compute; intros H; try discriminate H;
    repeat split; intros E; discriminate E.
Qed.

(** ** Splitting at a one-character separator *)

Lemma pushFront_map (f : ascii -> ascii) (c : ascii) (frags : list string) :
  map (mapChars f) (pushFront c frags) = pushFront (f c) (map (mapChars f) frags).
Proof. destruct frags; reflexivity. Qed.

Lemma split_char (d : ascii) (s : string) :
  split s (String d "") = splitFrom (String d "") 0 s.
Proof. reflexivity. Qed.

Lemma splitFrom_at_separator (d : ascii) (rest : string) :
  splitFrom (String d "") 0 (String d rest)
  = "" :: splitFrom (String d "") 0 rest.
Proof.
  simpl. destruct (ascii_dec d d) as [_|Hne]; [|now destruct Hne].
  destruct rest; reflexivity.
Qed.

Lemma splitFrom_off_separator (d c : ascii) (rest : string) :
  c <> d ->
  splitFrom (String d "") 0 (String c rest)
  = pushFront c (splitFrom (String d "") 0 rest).
Proof.
  intros Hne. simpl.
  destruct (ascii_dec d c) as [E|_]; [|reflexivity].
  now destruct Hne.
Qed.

(** A character map that neither creates nor removes the separator
    commutes with the split. *)
Lemma split_mapChars (f : ascii -> ascii) (d : ascii) (s : string) :
  (forall c, f c = d <-> c = d) ->
  split (mapChars f s) (String d "")
  = map (mapChars f) (split s (String d "")).
Proof.
  intros Hf. rewrite !split_char.
  induction s as [|c rest IH]; [reflexivity|].
  cbn [mapChars].
  destruct (ascii_dec c d) as [->|Hne].
  - rewrite (proj2 (Hf d) eq_refl), !splitFrom_at_separator, IH. reflexivity.
  - rewrite !splitFrom_off_separator, IH, pushFront_map; try assumption.
    + reflexivity.
    + intros E. apply Hne, Hf, E.
Qed.

Lemma mapChars_idempotent (f : ascii -> ascii) (s : string) :
  (forall c, f (f c) = f c) -> mapChars f (mapChars f s) = mapChars f s.
Proof.
  intros Hf. induction s as [|c rest IH]; simpl; [reflexivity|].
  rewrite Hf, IH. reflexivity.
Qed.

Lemma toLowerCase_idempotent (s : string) :
  toLowerCase (toLowerCase s) = toLowerCase s.
Proof. apply mapChars_idempotent, toLower_idempotent. Qed.

Lemma tokenize_screaming_snake (s : string) :
  tokenize s screaming = tokenize s snake.
Proof.
  unfold tokenize, tokenizeByCase, tokenizeSeparator.
  unfold toLowerCase at 2.
  rewrite (split_mapChars Char.toLower "_" s toLower_underscore).
  fold toLowerCase. rewrite map_map.
  apply map_ext. intros t. apply toLowerCase_idempotent.
Qed.

(** C10. Lowercasing the whole string and then splitting on ["_"] gives
    the same tokens as splitting on ["_"] and lowercasing each fragment:
    [screamingToWords] and [snakeToWords] agree on every nullable input. *)
Theorem C10_screaming_tokenizer_equals_snake (input : NullableString) :
  screamingToWords input = snakeToWords input.
Proof. apply (tokenize_screaming_snake (safeString input)). Qed.

Example screaming_snake_example :
  screamingToWords (Str "MAX_Retry__count_") = ["max"; "retry"; ""; "count"; ""] /\
  snakeToWords (Str "MAX_Retry__count_") = ["max"; "retry"; ""; "count"; ""].
Proof. vm_compute. split; reflexivity. Qed.

(** ** Round trip through the separator styles *)

Lemma mapChars_append (f : ascii -> ascii) (s t : string) :
  mapChars f (s +:+ t) = mapChars f s +:+ mapChars f t.
Proof.
  induction s as [|c s IH]; [reflexivity|].
  rewrite append_cons. simpl. rewrite IH. reflexivity.
Qed.

Lemma mapChars_join (f : ascii -> ascii) (sep : string) (tokens : list string) :
  mapChars f (join sep tokens) = join (mapChars f sep) (map (mapChars f) tokens).
Proof.
  induction tokens as [|t [|u rest] IH]; [reflexivity..|].
  rewrite join_cons_cons, !mapChars_append, IH. reflexivity.
Qed.

Lemma mapChars_fixed (f : ascii -> ascii) (p : ascii -> bool) (s : string) :
  (forall c, p c = true -> f c = c) ->
  allChars p s = true -> mapChars f s = s.
Proof.
  intros Hf. induction s as [|c rest IH]; simpl; [reflexivity|].
  intros [Hc Hrest]%andb_true_iff.
  rewrite (Hf c Hc), (IH Hrest). reflexivity.
Qed.

Lemma lowerAlnum_toLowerCase (t : string) :
  lowerAlnum t -> toLowerCase t = t.
Proof. apply mapChars_fixed, isLowerOrDigit_toLower. Qed.

Lemma lowerAlnum_toLowerCase_toUpperCase (t : string) :
  lowerAlnum t -> toLowerCase (toUpperCase t) = t.
Proof.
  unfold lowerAlnum, toLowerCase, toUpperCase.
  induction t as [|c rest IH]; cbn [mapChars allChars]; [reflexivity|].
  intros [Hc Hrest]%andb_true_iff.
  rewrite (isLowerOrDigit_toLower_toUpper c Hc).
  f_equal. apply IH, Hrest.
Qed.

Lemma map_fixed {A : Type} (f : A -> A) (P : A -> Prop) (l : list A) :
  (forall x, P x -> f x = x) -> Forall P l -> map f l = l.
Proof.
  intros Hf. induction 1 as [|x l Hx _ IH]; simpl; [reflexivity|].
  rewrite (Hf x Hx), IH. reflexivity.
Qed.

(** A token free of the separator is one fragment ... *)
Lemma splitFrom_separator_free (d : ascii) (t : string) :
  allChars (fun c => negb (Ascii.eqb c d)) t = true ->
  splitFrom (String d "") 0 t = [t].
Proof.
  induction t as [|c rest IH]; simpl allChars; [reflexivity|].
  intros [Hc Hrest]%andb_true_iff.
  apply negb_true_iff, Ascii.eqb_neq in Hc.
  rewrite splitFrom_off_separator, (IH Hrest); [reflexivity|assumption].
Qed.

(** ... and is cut off at the first separator that follows it. *)
Lemma splitFrom_first_token (d : ascii) (t s : string) :
  allChars (fun c => negb (Ascii.eqb c d)) t = true ->
  splitFrom (String d "") 0 (t +:+ String d s)
  = t :: splitFrom (String d "") 0 s.
Proof.
  induction t as [|c rest IH]; simpl allChars.
  - intros _. rewrite append_nil_l. apply splitFrom_at_separator.
  - intros [Hc Hrest]%andb_true_iff.
    apply negb_true_iff, Ascii.eqb_neq in Hc.
    rewrite append_cons, splitFrom_off_separator, (IH Hrest);
      [reflexivity|assumption].
Qed.

Lemma split_join (d : ascii) (tokens : list string) :
  tokens <> [] ->
  Forall (fun t => allChars (fun c => negb (Ascii.eqb c d)) t = true) tokens ->
  split (join (String d "") tokens) (String d "") = tokens.
Proof.
  intros Hne Hfree. rewrite split_char.
  destruct tokens as [|t rest]; [contradiction|clear Hne].
  revert t Hfree. induction rest as [|u rest IH]; intros t Hfree.
  - apply splitFrom_separator_free. now inversion Hfree.
  - rewrite join_cons_cons, append_cons, append_nil_l.
    inversion Hfree as [|? ? Ht Hrest]; subst.
    rewrite (splitFrom_first_token d t _ Ht), (IH u Hrest). reflexivity.
Qed.

Lemma allChars_impl (p q : ascii -> bool) (s : string) :
  (forall c, p c = true -> q c = true) ->
  allChars p s = true -> allChars q s = true.
Proof.
  intros Hpq. induction s as [|c rest IH]; simpl; [reflexivity|].
  intros [Hc Hrest]%andb_true_iff.
  rewrite (Hpq c Hc), (IH Hrest). reflexivity.
Qed.

Lemma lowerAlnum_separator_free (d : ascii) (tokens : list string) :
  In d ["_"; "-"; "."; "/"]%char ->
  Forall lowerAlnum tokens ->
  Forall (fun t => allChars (fun c => negb (Ascii.eqb c d)) t = true) tokens.
Proof.
  intros Hd Hlow. eapply Forall_impl; [exact Hlow|]. intros t.
  apply allChars_impl. intros c Hc.
  apply negb_true_iff, Ascii.eqb_neq.
  destruct (isLowerOrDigit_not_separator c Hc) as (H1 & H2 & H3 & H4).
  simpl in Hd. intuition congruence.
Qed.

Lemma tokenizeSeparator_join (d : ascii) (tokens : list string) :
  In d ["_"; "-"; "."; "/"]%char ->
  tokens <> [] ->
  Forall lowerAlnum tokens ->
  tokenizeSeparator (join (String d "") tokens) (String d "") = tokens.
Proof.
  intros Hd Hne Hlow. unfold tokenizeSeparator.
  rewrite split_join by auto using lowerAlnum_separator_free.
  apply (map_fixed _ lowerAlnum); [apply lowerAlnum_toLowerCase|assumption].
Qed.

(** The formatters do not check their argument: the empty token sequence
    is formatted as the empty string, which tokenizes to one empty token. *)
Lemma C1_round_trip_fails_on_empty_sequence :
  ~ (forall (style : CaseType) (tokens : list string),
        In style separatorStyles ->
        Forall lowerAlnum tokens ->
        tokenize (format tokens style) style = tokens).
Proof.
  intros H.
  assert (Hempty : tokenize (format [] snake) snake = []).
  { apply H; [simpl; auto | constructor]. }
  vm_compute in Hempty. discriminate Hempty.
Qed.

(** C1, as the code has it. For each of the styles snake, screaming,
    kebab, dot and path and every non-empty sequence of tokens made of
    the characters [a-z] and [0-9], tokenizing the formatted tokens gives
    the tokens back. *)
Theorem C1_separator_round_trip (style : CaseType) (tokens : list string) :
  In style separatorStyles ->
  tokens <> [] ->
  Forall lowerAlnum tokens ->
  tokenize (format tokens style) style = tokens.
Proof.
  intros Hstyle Hne Hlow.
  assert (Hscream : toLowerCase (toUpperCase (join "_" tokens)) = join "_" tokens).
  { unfold toLowerCase, toUpperCase. rewrite !mapChars_join, map_map.
    f_equal. apply (map_fixed _ lowerAlnum); [|assumption].
    apply lowerAlnum_toLowerCase_toUpperCase. }
  simpl in Hstyle.
  destruct Hstyle as [<- | [<- | [<- | [<- | [<- | []]]]]];
    unfold tokenize, format, tokenizeByCase, formatByCase,
      toSnake, toScreamingSnake, toKebab, toDot, toPath;
    rewrite ?Hscream;
    apply tokenizeSeparator_join; simpl; auto 6.
Qed.

Lemma C1_separator_round_trip_witness :
  tokenize (format ["max"; "retry"; "count2"] screaming) screaming
  = ["max"; "retry"; "count2"].
Proof.
  apply (C1_separator_round_trip screaming ["max"; "retry"; "count2"]).
  - simpl. right. left. reflexivity.
  - discriminate.
  - repeat constructor.
Defined.

Example round_trip_examples :
  format ["max"; "retry"; "count2"] screaming = "MAX_RETRY_COUNT2" /\
  tokenize (format ["a"; ""; "b"] dot) dot = ["a"; ""; "b"] /\
  tokenize (format [] kebab) kebab = [""] /\
  tokenize (format ["a_b"] snake) snake = ["a"; "b"].
Proof. vm_compute. repeat split. Qed.

(** ** The camel/pascal tokenizer *)

Lemma isUpper_not_lowerOrDigit (c : ascii) :
  Char.isUpper c = true -> Char.isLowerOrDigit c = false.
Proof. each_ascii c; vm_compute; intros H; solve [reflexivity | discriminate H]. Qed.

Lemma isLower_not_upper (c : ascii) :
  Char.isLower c = true -> Char.isUpper c = false.
Proof. each_ascii c; vm_compute; intros H; solve [reflexivity | discriminate H]. Qed.

Lemma isSpace_no_letter (c : ascii) :
  Char.isSpace c = true ->
  Char.isLowerOrDigit c = false /\ Char.isUpper c = false.
Proof.
  each_ascii c; vm_compute; intros H; solve [split; reflexivity | discriminate H].
Qed.

Lemma insertSpaces_cons (here : ascii -> string -> bool) (a : ascii) (rest : string) :
  insertSpaces here (String a rest)
  = if here a rest then String a (String " " (insertSpaces here rest))
    else String a (insertSpaces here rest).
Proof. reflexivity. Qed.

Lemma replaceLowerUpper_cons (a b : ascii) (rest : string) :
  replaceLowerUpper (String a (String b rest))
  = if Char.isLowerOrDigit a && Char.isUpper b
    then String a (String " " (String b (replaceLowerUpper rest)))
    else String a (replaceLowerUpper (String b rest)).
Proof. reflexivity. Qed.

Lemma replaceUpperWord_cons (a b c : ascii) (rest : string) :
  replaceUpperWord (String a (String b (String c rest)))
  = if Char.isUpper a && Char.isUpper b && Char.isLower c
    then String a (String " " (String b (String c (replaceUpperWord rest))))
    else String a (replaceUpperWord (String b (String c rest))).
Proof. reflexivity. Qed.

Lemma lowerThenUpper_upper (a : ascii) (rest : string) :
  Char.isUpper a = true -> lowerThenUpper a rest = false.
Proof.
  intros Ha. destruct rest as [|b rest]; [reflexivity|].
  unfold lowerThenUpper. rewrite (isUpper_not_lowerOrDigit a Ha). reflexivity.
Qed.

Lemma upperThenWord_not_upper (a : ascii) (rest : string) :
  Char.isUpper a = false -> upperThenWord a rest = false.
Proof.
  intros Ha. destruct rest as [|b rest]; [reflexivity|].
  unfold upperThenWord. rewrite Ha. reflexivity.
Qed.

Lemma upperThenWord_next_not_upper (a b : ascii) (rest : string) :
  Char.isUpper b = false -> upperThenWord a (String b rest) = false.
Proof.
  intros Hb. unfold upperThenWord. rewrite Hb, andb_false_r. reflexivity.
Qed.

(** The first replace skips the two characters of a match; the second of
    them is uppercase and cannot start a match, so nothing is missed. *)
Lemma replaceLowerUpper_insertSpaces (s : string) :
  replaceLowerUpper s = insertSpaces lowerThenUpper s.
Proof.
  enough (H : replaceLowerUpper s = insertSpaces lowerThenUpper s /\
              forall a, replaceLowerUpper (String a s)
                        = insertSpaces lowerThenUpper (String a s))
    by apply H.
  induction s as [|b rest [IH0 IH1]].
  - split; [reflexivity | intros a; reflexivity].
  - split; [apply IH1|]. intros a.
    rewrite replaceLowerUpper_cons, (insertSpaces_cons _ a).
    change (lowerThenUpper a (String b rest))
      with (Char.isLowerOrDigit a && Char.isUpper b).
    destruct (Char.isLowerOrDigit a && Char.isUpper b) eqn:Hmatch.
    + apply andb_true_iff in Hmatch as [_ Hb].
      rewrite insertSpaces_cons, (lowerThenUpper_upper b rest Hb), IH0.
      reflexivity.
    + rewrite IH1. reflexivity.
Qed.

(** The second replace skips the three characters of a match; the second
    is followed by a lowercase letter and the third is lowercase, so
    neither starts a match. *)
Lemma replaceUpperWord_insertSpaces (s : string) :
  replaceUpperWord s = insertSpaces upperThenWord s.
Proof.
  enough (H : replaceUpperWord s = insertSpaces upperThenWord s /\
              (forall a, replaceUpperWord (String a s)
                         = insertSpaces upperThenWord (String a s)) /\
              (forall a b, replaceUpperWord (String a (String b s))
                           = insertSpaces upperThenWord (String a (String b s))))
    by apply H.
  induction s as [|c rest (IH0 & IH1 & IH2)].
  - split; [reflexivity|]. split; [intros a; reflexivity|].
    intros a b. simpl. rewrite andb_false_r. reflexivity.
  - split; [apply IH1|]. split; [intros a; apply IH2|]. intros a b.
    rewrite replaceUpperWord_cons, (insertSpaces_cons _ a).
    change (upperThenWord a (String b (String c rest)))
      with (Char.isUpper a && Char.isUpper b && Char.isLower c).
    destruct (Char.isUpper a && Char.isUpper b && Char.isLower c) eqn:Hmatch.
    + apply andb_true_iff in Hmatch as [_ Hc].
      pose proof (isLower_not_upper c Hc) as Hc'.
      rewrite (insertSpaces_cons _ b), (upperThenWord_next_not_upper b c rest Hc').
      rewrite (insertSpaces_cons _ c), (upperThenWord_not_upper c rest Hc'), IH0.
      reflexivity.
    + rewrite IH2. reflexivity.
Qed.

(** The spaces of the first replace do not disturb the second rule. *)
Lemma upperThenWord_insertSpaces (a : ascii) (rest : string) :
  upperThenWord a (insertSpaces lowerThenUpper rest) = upperThenWord a rest.
Proof.
  destruct rest as [|b rest]; [reflexivity|].
  rewrite insertSpaces_cons.
  destruct (Char.isUpper b) eqn:Hb.
  - rewrite (lowerThenUpper_upper b rest Hb).
    destruct rest as [|c rest]; [reflexivity|].
    rewrite insertSpaces_cons.
    destruct (lowerThenUpper c rest); reflexivity.
  - destruct (lowerThenUpper b rest);
      rewrite !upperThenWord_next_not_upper by assumption; reflexivity.
Qed.

Lemma insertSpaces_both_rules (s : string) :
  insertSpaces upperThenWord (insertSpaces lowerThenUpper s)
  = insertSpaces boundaryAfter s.
Proof.
  induction s as [|a rest IH]; [reflexivity|].
  rewrite (insertSpaces_cons lowerThenUpper), (insertSpaces_cons boundaryAfter).
  unfold boundaryAfter at 1.
  destruct (lowerThenUpper a rest) eqn:Hfirst; cbn [orb].
  - rewrite (insertSpaces_cons upperThenWord a).
    rewrite (upperThenWord_next_not_upper a " ") by reflexivity.
    rewrite (insertSpaces_cons upperThenWord " ").
    rewrite (upperThenWord_not_upper " ") by reflexivity.
    rewrite IH. reflexivity.
  - rewrite (insertSpaces_cons upperThenWord a), upperThenWord_insertSpaces, IH.
    reflexivity.
Qed.

Lemma boundaryAfter_space (a : ascii) (rest : string) :
  Char.isSpace a = true -> boundaryAfter a rest = false.
Proof.
  intros [Hlow Hup]%isSpace_no_letter. unfold boundaryAfter.
  rewrite (upperThenWord_not_upper a rest Hup), orb_false_r.
  destruct rest as [|b rest]; [reflexivity|].
  unfold lowerThenUpper. rewrite Hlow. reflexivity.
Qed.

Lemma splitSpace_cons (c : ascii) (rest : string) :
  splitSpace (String c rest)
  = if Char.isSpace c then "" :: splitSpace rest
    else pushFront c (splitSpace rest).
Proof. reflexivity. Qed.

Lemma splitSpace_insertSpaces (s : string) :
  splitSpace (insertSpaces boundaryAfter s) = fragmentsOrSpaces s.
Proof.
  induction s as [|a rest IH]; [reflexivity|].
  rewrite insertSpaces_cons. cbn [fragmentsOrSpaces].
  destruct (Char.isSpace a) eqn:Hspace.
  - rewrite (boundaryAfter_space a rest Hspace), splitSpace_cons, Hspace, IH.
    reflexivity.
  - destruct (boundaryAfter a rest).
    + rewrite splitSpace_cons, Hspace, splitSpace_cons.
      change (Char.isSpace " ") with true. cbn iota.
      rewrite IH. reflexivity.
    + rewrite splitSpace_cons, Hspace, IH. reflexivity.
Qed.

Lemma fragmentsOrSpaces_no_space (s : string) :
  allChars (fun c => negb (Char.isSpace c)) s = true ->
  fragmentsOrSpaces s = fragments s.
Proof.
  induction s as [|a rest IH]; [reflexivity|].
  cbn [allChars fragmentsOrSpaces fragments].
  intros [Ha Hrest]%andb_true_iff.
  apply negb_true_iff in Ha. rewrite Ha, (IH Hrest). reflexivity.
Qed.

Lemma tokenizeCamelPascal_boundaryOrSpaceTokens (s : string) :
  tokenizeCamelPascal s = boundaryOrSpaceTokens s.
Proof.
  unfold tokenizeCamelPascal, boundaryOrSpaceTokens.
  rewrite replaceLowerUpper_insertSpaces, replaceUpperWord_insertSpaces.
  rewrite insertSpaces_both_rules, splitSpace_insertSpaces. reflexivity.
Qed.

(** On input without whitespace the tokens are the fragments between the
    inserted boundaries, lowercased. *)
Lemma tokenizeCamelPascal_boundaryTokens (s : string) :
  allChars (fun c => negb (Char.isSpace c)) s = true ->
  tokenizeCamelPascal s = boundaryTokens s.
Proof.
  intros Hfree. rewrite tokenizeCamelPascal_boundaryOrSpaceTokens.
  unfold boundaryOrSpaceTokens, boundaryTokens.
  rewrite (fragmentsOrSpaces_no_space s Hfree). reflexivity.
Qed.

(** The split is on every whitespace character, so whitespace that the
    input already contains separates tokens too: no boundary rule applies
    inside ["a b"], yet the tokenizer returns two tokens. *)
Lemma C2_split_also_on_input_whitespace :
  ~ (forall s : string, tokenizeCamelPascal s = boundaryTokens s).
Proof.
  intros H. specialize (H "a b"). vm_compute in H. discriminate H.
Qed.

(** C2, as the code has it. For every input string the camel/pascal
    tokenizer cuts between a lowercase letter or digit and an uppercase
    letter that follows it, between an uppercase letter and an uppercase
    letter followed by a lowercase one, and at every whitespace character
    of the input (which is dropped); it lowercases every fragment. *)
Theorem C2_tokenizeCamelPascal_boundaries (s : string) :
  tokenizeCamelPascal s = map toLowerCase (fragmentsOrSpaces s).
Proof. apply tokenizeCamelPascal_boundaryOrSpaceTokens. Qed.

Example tokenizeCamelPascal_examples :
  tokenizeCamelPascal "myVariableName" = ["my"; "variable"; "name"] /\
  tokenizeCamelPascal "HTTPServer" = ["http"; "server"] /\
  tokenizeCamelPascal "a b" = ["a"; "b"] /\
  boundaryTokens "a b" = ["a b"] /\
  tokenizeCamelPascal "" = [""].
Proof. vm_compute. repeat split. Qed.

(** * Further properties of the converters *)

(** ** The set of exported names *)




(** Distinct pairs of styles get distinct names. *)
Theorem fnName_injective (from to from' to' : CaseType) :
  fnName from to = fnName from' to' -> from = from' /\ to = to'.
Proof.
  pose (table := list_to_map
          (flat_map (fun a => map (fun b => (fnName a b, (a, b))) cases) cases)
        : gmap string (CaseType * CaseType)).
  assert (Hlook : forall a b, table !! fnName a b = Some (a, b)).
  { intros a b. destruct a, b; vm_compute; reflexivity. }
  intros Heq.
  pose proof (Hlook from to) as H1. rewrite Heq, Hlook in H1.
  split; congruence.
Qed.

Lemma fnName_injective_witness : snake = snake /\ camel = camel.
Proof. apply (fnName_injective snake camel snake camel). reflexivity. Defined.

Example exported_missing :
  exported "camelToScreamingSnake" = None /\ exported "cameltosnake" = None.
Proof. vm_compute. split; reflexivity. Qed.

(** ** What every tokenizer guarantees *)

Lemma pushFront_nonempty (c : ascii) (frags : list string) :
  pushFront c frags <> [].
Proof. destruct frags; discriminate. Qed.

Lemma splitFrom_nonempty (sep : string) (skip : nat) (s : string) :
  splitFrom sep skip s <> [].
Proof.
  revert skip. induction s as [|c rest IH]; intros skip.
  - discriminate.
  - destruct skip; cbn [splitFrom]; [|apply IH].
    destruct (String.prefix sep (String c rest));
      [discriminate | apply pushFront_nonempty].
Qed.

Lemma splitSpace_nonempty (s : string) : splitSpace s <> [].
Proof.
  destruct s as [|c rest]; simpl; [discriminate|].
  destruct (Char.isSpace c); [discriminate | apply pushFront_nonempty].
Qed.

Lemma map_nonempty {A B : Type} (f : A -> B) (l : list A) :
  l <> [] -> map f l <> [].
Proof. destruct l; [contradiction | discriminate]. Qed.

(** A tokenizer never returns the empty sequence: there is always a first
    token, whatever the style and the input. *)
Theorem tokenize_never_empty (style : CaseType) (s : string) :
  tokenize s style <> [].
Proof.
  destruct style; unfold tokenize, tokenizeByCase, tokenizeCamelPascal,
    tokenizeSeparator, tokenizeFlat, split;
    solve [ discriminate
          | apply map_nonempty, splitSpace_nonempty
          | apply map_nonempty, splitFrom_nonempty ].
Qed.

Lemma toLower_not_upper (c : ascii) : Char.isUpper (Char.toLower c) = false.
Proof. each_ascii c; reflexivity. Qed.

Lemma toLowerCase_no_upper (t : string) :
  allChars (fun c => negb (Char.isUpper c)) (toLowerCase t) = true.
Proof.
  unfold toLowerCase. induction t as [|c rest IH]; cbn [mapChars allChars].
  - reflexivity.
  - rewrite toLower_not_upper, IH. reflexivity.
Qed.

Lemma Forall_map_toLowerCase (frags : list string) :
  Forall (fun t => toLowerCase t = t /\
                   allChars (fun c => negb (Char.isUpper c)) t = true)
         (map toLowerCase frags).
Proof.
  induction frags as [|f rest IH]; simpl; constructor; [|exact IH].
  split; [apply toLowerCase_idempotent | apply toLowerCase_no_upper].
Qed.

(** Tokens carry no casing: every token of every tokenizer is its own
    lowercase form and contains no letter [A-Z]. *)
Theorem tokenize_tokens_lowercase (style : CaseType) (s : string) :
  Forall (fun t => toLowerCase t = t /\
                   allChars (fun c => negb (Char.isUpper c)) t = true)
         (tokenize s style).
Proof.
  destruct style; unfold tokenize, tokenizeByCase, tokenizeCamelPascal,
    tokenizeSeparator, tokenizeFlat;
    try apply Forall_map_toLowerCase.
  all: apply (Forall_map_toLowerCase [s]).
Qed.

Lemma toLower_separator (c d : ascii) :
  In d ["_"; "-"; "."; "/"]%char -> Char.toLower c = d -> c = d.
Proof.
  intros [<- | [<- | [<- | [<- | []]]]];
    each_ascii c; vm_compute; intros H; solve [reflexivity | discriminate H].
Qed.

Lemma separatorOf_listed (style : CaseType) (d : ascii) :
  separatorOf style = Some d -> In d ["_"; "-"; "."; "/"]%char.
Proof. destruct style; intros [= <-]; simpl; auto. Qed.

Lemma tokenize_separatorOf (style : CaseType) (d : ascii) (s : string) :
  separatorOf style = Some d ->
  tokenize s style
  = map toLowerCase (splitFrom (String d "") 0
                       (if bool_decide (style = screaming) then toLowerCase s else s)).
Proof. destruct style; intros [= <-]; reflexivity. Qed.

Lemma countChar_toLowerCase (d : ascii) (s : string) :
  In d ["_"; "-"; "."; "/"]%char ->
  countChar d (toLowerCase s) = countChar d s.
Proof.
  intros Hd. unfold toLowerCase.
  induction s as [|c rest IH]; cbn [mapChars countChar]; [reflexivity|].
  rewrite IH.
  destruct (Ascii.eqb_spec (Char.toLower c) d) as [E|E],
           (Ascii.eqb_spec c d) as [E'|E']; try reflexivity.
  - destruct E'. apply (toLower_separator c d Hd E).
  - subst c. destruct E.
    destruct Hd as [<- | [<- | [<- | [<- | []]]]]; reflexivity.
Qed.

Lemma splitFrom_fragments_free (d : ascii) (s : string) :
  Forall (fun t => countChar d t = 0) (splitFrom (String d "") 0 s).
Proof.
  induction s as [|c rest IH]; [repeat constructor|].
  destruct (ascii_dec c d) as [->|Hne].
  - rewrite splitFrom_at_separator. constructor; [reflexivity | exact IH].
  - rewrite (splitFrom_off_separator d c rest Hne).
    destruct (splitFrom (String d "") 0 rest) as [|f fs]; simpl.
    + constructor; [|constructor].
      simpl. rewrite (proj2 (Ascii.eqb_neq c d) Hne). reflexivity.
    + inversion IH as [|? ? Hf Hfs]; subst. constructor; [|exact Hfs].
      simpl. rewrite (proj2 (Ascii.eqb_neq c d) Hne). exact Hf.
Qed.

(** The tokens of a separator style contain no separator: splitting
    consumes every occurrence, and lowercasing creates none. *)
Theorem tokenize_tokens_separator_free (style : CaseType) (d : ascii) (s : string) :
  separatorOf style = Some d ->
  Forall (fun t => countChar d t = 0) (tokenize s style).
Proof.
  intros Hsep. rewrite (tokenize_separatorOf style d s Hsep).
  pose proof (separatorOf_listed style d Hsep) as Hd.
  generalize (splitFrom_fragments_free d
                (if bool_decide (style = screaming) then toLowerCase s else s)).
  generalize (splitFrom (String d "") 0
                (if bool_decide (style = screaming) then toLowerCase s else s)).
  intros frags. induction 1 as [|f fs Hf _ IH]; simpl; constructor; [|exact IH].
  rewrite countChar_toLowerCase; assumption.
Qed.

Lemma tokenize_tokens_separator_free_witness :
  Forall (fun t => countChar "." t = 0) (tokenize "a.B..c" dot).
Proof.
  apply (tokenize_tokens_separator_free dot "."%char "a.B..c"). reflexivity.
Defined.

Lemma pushFront_length (c : ascii) (frags : list string) :
  frags <> [] -> length (pushFront c frags) = length frags.
Proof. destruct frags; [contradiction | reflexivity]. Qed.

Lemma splitFrom_length (d : ascii) (s : string) :
  length (splitFrom (String d "") 0 s) = S (countChar d s).
Proof.
  induction s as [|c rest IH]; [reflexivity|].
  cbn [countChar].
  destruct (Ascii.eqb_spec c d) as [->|Hne].
  - rewrite splitFrom_at_separator. simpl. rewrite IH. reflexivity.
  - rewrite (splitFrom_off_separator d c rest Hne), pushFront_length, IH;
      [reflexivity | apply splitFrom_nonempty].
Qed.

(** In a separator style the number of tokens is the number of separator
    occurrences in the input plus one; leading, trailing and doubled
    separators therefore yield empty tokens rather than being skipped. *)
Theorem tokenize_token_count (style : CaseType) (d : ascii) (s : string) :
  separatorOf style = Some d ->
  length (tokenize s style) = S (countChar d s).
Proof.
  intros Hsep. rewrite (tokenize_separatorOf style d s Hsep).
  rewrite length_map, splitFrom_length.
  destruct (bool_decide (style = screaming)); [|reflexivity].
  rewrite countChar_toLowerCase; [reflexivity|].
  apply (separatorOf_listed style d Hsep).
Qed.

Lemma tokenize_token_count_witness :
  length (tokenize "_A__b_" screaming) = S (countChar "_" "_A__b_").
Proof.
  apply (tokenize_token_count screaming "_"%char "_A__b_"). reflexivity.
Defined.

(** ** Tokenizing and formatting composed *)



















Example convert_between_separator_styles_example :
  createConverter kebab path (Str "my-Var/name") = "my/var/name" /\
  createConverter dot screaming (Str "a.b_c") = "A_B_C".
Proof. vm_compute. split; reflexivity. Qed.

(** ** Conversions to and from the flat styles *)

Lemma concatAll_pushFront (c : ascii) (frags : list string) :
  concatAll (pushFront c frags) = String c (concatAll frags).
Proof. destruct frags; reflexivity. Qed.


Lemma concatAll_splitSpace (s : string) :
  concatAll (splitSpace s) = removeChars Char.isSpace s.
Proof.
  induction s as [|c rest IH]; [reflexivity|].
  cbn [splitSpace removeChars].
  destruct (Char.isSpace c).
  - exact IH.
  - rewrite concatAll_pushFront, IH. reflexivity.
Qed.









(** A conversion out of a flat style finds no word boundary: into camel,
    snake, kebab, dot or path it returns the input lowercased, without
    any separator or capital. *)
Theorem convert_from_flat (from to : CaseType) (x : NullableString) :
  In from [upper; lower] ->
  In to [camel; snake; kebab; dot; path] ->
  createConverter from to x = toLowerCase (safeString x).
Proof.
  intros Hfrom Hto. unfold createConverter.
  destruct (safeString x) as [|c rest] eqn:E; [reflexivity|].
  cbn [isEmpty]. simpl in Hfrom, Hto.
  destruct Hfrom as [<- | [<- | []]];
    destruct Hto as [<- | [<- | [<- | [<- | [<- | []]]]]];
    reflexivity.
Qed.

Lemma convert_from_flat_witness :
  createConverter upper snake (Str "MYVARNAME") = toLowerCase (safeString (Str "MYVARNAME")).
Proof.
  apply (convert_from_flat upper snake (Str "MYVARNAME")); simpl; auto.
Defined.

Lemma toUpper_not_lower (c : ascii) : Char.isLower (Char.toUpper c) = false.
Proof. each_ascii c; reflexivity. Qed.

Lemma toUpperCase_no_lower (s : string) :
  allChars (fun c => negb (Char.isLower c)) (toUpperCase s) = true.
Proof.
  unfold toUpperCase. induction s as [|c rest IH]; cbn [mapChars allChars].
  - reflexivity.
  - rewrite toUpper_not_lower, IH. reflexivity.
Qed.

(** A conversion into screaming or upper from a different style returns
    no lowercase letter. The identity conversions are excluded: they
    return the input as it is, lowercase letters included. *)
Theorem convert_to_uppercase_style (from to : CaseType) (x : NullableString) :
  In to [screaming; upper] ->
  from <> to ->
  allChars (fun c => negb (Char.isLower c)) (createConverter from to x) = true.
Proof.
  intros Hto Hne. unfold createConverter.
  destruct (safeString x) as [|c rest]; [reflexivity|].
  cbn [isEmpty]. rewrite bool_decide_eq_false_2 by exact Hne.
  destruct Hto as [<- | [<- | []]]; apply toUpperCase_no_lower.
Qed.

Lemma convert_to_uppercase_style_witness :
  allChars (fun c => negb (Char.isLower c))
    (createConverter camel screaming (Str "myVarName")) = true.
Proof.
  apply (convert_to_uppercase_style camel screaming (Str "myVarName"));
    [simpl; auto | discriminate].
Defined.

Example identity_keeps_casing :
  createConverter upper upper (Str "abc") = "abc" /\
  createConverter lower lower (Str "ABC") = "ABC" /\
  createConverter lower upper (Str "abc") = "ABC".
Proof. vm_compute. repeat split. Qed.

(** ** Camel and pascal case *)

Lemma toUpper_idempotent (c : ascii) :
  Char.toUpper (Char.toUpper c) = Char.toUpper c.
Proof. each_ascii c; reflexivity. Qed.

Lemma toPascal_concatAll (tokens : list string) :
  toPascal tokens = concatAll (map capitalized tokens).
Proof.
  unfold toPascal. rewrite join_empty_separator. f_equal.
  apply map_ext, capitalize_capitalized.
Qed.

Lemma concatAll_cons (t : string) (rest : list string) :
  concatAll (t :: rest) = t +:+ concatAll rest.
Proof. reflexivity. Qed.

Lemma capitalized_concatAll (tokens : list string) :
  capitalized (concatAll (map capitalized tokens))
  = concatAll (map capitalized tokens).
Proof.
  induction tokens as [|t rest IH]; [reflexivity|].
  cbn [map]. rewrite concatAll_cons.
  destruct t as [|c r].
  - cbn [capitalized]. rewrite append_nil_l. exact IH.
  - cbn [capitalized]. rewrite append_cons. cbn [capitalized].
    rewrite toUpper_idempotent. reflexivity.
Qed.

Lemma toPascal_toCamel (tokens : list string) :
  toPascal tokens = capitalize (toCamel tokens).
Proof.
  rewrite toPascal_concatAll, toCamel_camelJoin, capitalize_capitalized.
  destruct tokens as [|t rest]; [reflexivity|].
  cbn [map camelJoin]. rewrite concatAll_cons.
  destruct t as [|c r].
  - cbn [capitalized]. rewrite !append_nil_l, capitalized_concatAll.
    reflexivity.
  - reflexivity.
Qed.

(** The pascal formatter is the camel formatter with the first character
    of its result uppercased, for every token sequence (empty tokens and
    the empty sequence included). *)
Theorem toPascal_is_capitalized_toCamel (tokens : list string) :
  wordsToPascal tokens = capitalize (wordsToCamel tokens).
Proof. apply toPascal_toCamel. Qed.

Lemma isLowerOrDigit_not_upper (c : ascii) :
  Char.isLowerOrDigit c = true -> Char.isUpper c = false.
Proof. each_ascii c; vm_compute; intros H; solve [reflexivity | discriminate H]. Qed.

Lemma isLowerOrDigit_not_space (c : ascii) :
  Char.isLowerOrDigit c = true -> Char.isSpace c = false.
Proof. each_ascii c; vm_compute; intros H; solve [reflexivity | discriminate H]. Qed.

Lemma isUpper_not_space (c : ascii) :
  Char.isUpper c = true -> Char.isSpace c = false.
Proof. each_ascii c; vm_compute; intros H; solve [reflexivity | discriminate H]. Qed.

Lemma isLower_toUpper_upper (c : ascii) :
  Char.isLower c = true -> Char.isUpper (Char.toUpper c) = true.
Proof. each_ascii c; vm_compute; intros H; solve [reflexivity | discriminate H]. Qed.

Lemma isLower_lowerOrDigit (c : ascii) :
  Char.isLower c = true -> Char.isLowerOrDigit c = true.
Proof. unfold Char.isLowerOrDigit. intros ->. reflexivity. Qed.

(** No boundary after a lowercase letter or digit that is followed by
    another one. *)
Lemma boundaryAfter_inside_word (c d : ascii) (rest : string) :
  Char.isLowerOrDigit c = true -> Char.isLowerOrDigit d = true ->
  boundaryAfter c (String d rest) = false.
Proof.
  intros Hc Hd. unfold boundaryAfter, lowerThenUpper.
  rewrite (isLowerOrDigit_not_upper d Hd), andb_false_r.
  rewrite (upperThenWord_not_upper c _ (isLowerOrDigit_not_upper c Hc)).
  reflexivity.
Qed.

Lemma fragmentsOrSpaces_word (w : string) :
  lowerAlnum w -> fragmentsOrSpaces w = [w].
Proof.
  unfold lowerAlnum. induction w as [|c r IH]; [reflexivity|].
  cbn [allChars]. intros [Hc Hr]%andb_true_iff.
  cbn [fragmentsOrSpaces]. rewrite (isLowerOrDigit_not_space c Hc), (IH Hr).
  destruct r as [|d r'].
  - reflexivity.
  - cbn [allChars] in Hr. apply andb_true_iff in Hr as [Hd _].
    rewrite (boundaryAfter_inside_word c d r' Hc Hd). reflexivity.
Qed.

(** A word is cut off where an uppercase letter follows it. *)
Lemma fragmentsOrSpaces_word_then_upper (w : string) (U : ascii) (rest : string) :
  lowerAlnum w -> w <> "" -> Char.isUpper U = true ->
  fragmentsOrSpaces (w +:+ String U rest)
  = w :: fragmentsOrSpaces (String U rest).
Proof.
  unfold lowerAlnum. intros Hw Hne HU.
  induction w as [|c r IH]; [contradiction|clear Hne].
  cbn [allChars] in Hw. apply andb_true_iff in Hw as [Hc Hr].
  rewrite append_cons.
  cbn [fragmentsOrSpaces]. rewrite (isLowerOrDigit_not_space c Hc).
  destruct r as [|d r'].
  - rewrite append_nil_l. unfold boundaryAfter at 1, lowerThenUpper.
    rewrite Hc, HU. reflexivity.
  - rewrite append_cons.
    pose proof Hr as Hr'. cbn [allChars] in Hr'.
    apply andb_true_iff in Hr' as [Hd _].
    rewrite (boundaryAfter_inside_word c d _ Hc Hd).
    rewrite <- append_cons, (IH Hr) by discriminate. reflexivity.
Qed.

(** No boundary between the capital of a word and its second character. *)
Lemma fragmentsOrSpaces_capital (U d : ascii) (rest : string) :
  Char.isUpper U = true -> Char.isLowerOrDigit d = true ->
  fragmentsOrSpaces (String U (String d rest))
  = pushFront U (fragmentsOrSpaces (String d rest)).
Proof.
  intros HU Hd.
  change (fragmentsOrSpaces (String U (String d rest)))
    with (if Char.isSpace U then "" :: fragmentsOrSpaces (String d rest)
          else if boundaryAfter U (String d rest)
               then String U "" :: fragmentsOrSpaces (String d rest)
               else pushFront U (fragmentsOrSpaces (String d rest))).
  rewrite (isUpper_not_space U HU).
  unfold boundaryAfter. rewrite (lowerThenUpper_upper U _ HU).
  rewrite (upperThenWord_next_not_upper U d rest (isLowerOrDigit_not_upper d Hd)).
  reflexivity.
Qed.

Lemma camelWord_inv (t : string) :
  camelWord t ->
  exists c d r, t = String c (String d r) /\ Char.isLower c = true /\
                lowerAlnum (String d r).
Proof.
  destruct t as [|c [|d r]]; simpl; try contradiction.
  intros [Hc Hr]. exists c, d, r. repeat split; assumption.
Qed.

Lemma concatAll_capitalized_head (t : string) (ws : list string) :
  camelWord t ->
  exists U rest, concatAll (map capitalized (t :: ws)) = String U rest /\
                 Char.isUpper U = true.
Proof.
  intros (c & d & r & -> & Hc & _)%camelWord_inv.
  eexists _, _. split; [reflexivity | apply isLower_toUpper_upper, Hc].
Qed.

Lemma fragmentsOrSpaces_capitalized (t : string) (ws : list string) :
  Forall camelWord (t :: ws) ->
  fragmentsOrSpaces (concatAll (map capitalized (t :: ws)))
  = map capitalized (t :: ws).
Proof.
  revert t. induction ws as [|u ws IH]; intros t Hall;
    inversion Hall as [|? ? Ht Hws]; subst;
    destruct (camelWord_inv t Ht) as (c & d & r & -> & Hc & Hr);
    pose proof (isLower_toUpper_upper c Hc) as HU;
    pose proof Hr as Hd; unfold lowerAlnum in Hd; cbn [allChars] in Hd;
    apply andb_true_iff in Hd as [Hd _].
  - cbn [map capitalized]. rewrite concatAll_cons. cbn [concatAll fold_right].
    rewrite append_nil_r.
    rewrite (fragmentsOrSpaces_capital _ d r HU Hd).
    rewrite (fragmentsOrSpaces_word _ Hr). reflexivity.
  - change (map capitalized (String c (String d r) :: u :: ws))
      with (String (Char.toUpper c) (String d r) :: map capitalized (u :: ws)).
    rewrite concatAll_cons, !append_cons.
    rewrite (fragmentsOrSpaces_capital _ d _ HU Hd).
    rewrite <- append_cons.
    inversion Hws as [|? ? Hu _]; subst.
    destruct (concatAll_capitalized_head u ws Hu) as (U' & rest' & EX & HU').
    rewrite EX.
    rewrite (fragmentsOrSpaces_word_then_upper _ U' rest' Hr) by
      (discriminate || assumption).
    rewrite <- EX, (IH u Hws). reflexivity.
Qed.

Lemma camelWord_toLowerCase_capitalized (t : string) :
  camelWord t -> toLowerCase (capitalized t) = t.
Proof.
  intros (c & d & r & -> & Hc & Hr)%camelWord_inv.
  cbn [capitalized]. unfold toLowerCase. cbn [mapChars].
  rewrite (isLowerOrDigit_toLower_toUpper c (isLower_lowerOrDigit c Hc)).
  f_equal. apply (lowerAlnum_toLowerCase _ Hr).
Qed.

Lemma tokenize_toPascal (tokens : list string) :
  tokens <> [] -> Forall camelWord tokens ->
  tokenizeCamelPascal (toPascal tokens) = tokens.
Proof.
  intros Hne Hall. destruct tokens as [|t ws]; [contradiction|].
  rewrite tokenizeCamelPascal_boundaryOrSpaceTokens, toPascal_concatAll.
  unfold boundaryOrSpaceTokens.
  rewrite (fragmentsOrSpaces_capitalized t ws Hall), map_map.
  apply (map_fixed _ camelWord); [|exact Hall].
  apply camelWord_toLowerCase_capitalized.
Qed.

Lemma tokenize_toCamel (first : string) (others : list string) :
  first <> "" -> lowerAlnum first -> Forall camelWord others ->
  tokenizeCamelPascal (toCamel (first :: others)) = first :: others.
Proof.
  intros Hne Hfirst Hall.
  rewrite tokenizeCamelPascal_boundaryOrSpaceTokens, toCamel_camelJoin.
  unfold boundaryOrSpaceTokens. cbn [camelJoin].
  destruct others as [|u ws].
  - cbn [map concatAll fold_right]. rewrite append_nil_r.
    rewrite (fragmentsOrSpaces_word _ Hfirst). cbn [map].
    rewrite (lowerAlnum_toLowerCase _ Hfirst). reflexivity.
  - inversion Hall as [|? ? Hu _]; subst.
    destruct (concatAll_capitalized_head u ws Hu) as (U' & rest' & EX & HU').
    rewrite EX, (fragmentsOrSpaces_word_then_upper _ U' rest' Hfirst Hne HU').
    rewrite <- EX, (fragmentsOrSpaces_capitalized u ws Hall).
    cbn [map]. rewrite (lowerAlnum_toLowerCase _ Hfirst), map_map.
    f_equal. change (toLowerCase (capitalized u) :: map (fun x => toLowerCase (capitalized x)) ws)
      with (map (fun x => toLowerCase (capitalized x)) (u :: ws)).
    apply (map_fixed _ camelWord); [|exact Hall].
    apply camelWord_toLowerCase_capitalized.
Qed.

(** ** Conversions of well-formed identifiers *)

Lemma tokenize_format_separator (style : CaseType) (tokens : list string) :
  In style separatorStyles ->
  tokens <> [] -> Forall lowerAlnum tokens ->
  tokenize (format tokens style) style = tokens.
Proof.
  intros Hstyle Hne Hlow.
  assert (Hscream : toLowerCase (toUpperCase (join "_" tokens)) = join "_" tokens).
  { unfold toLowerCase, toUpperCase. rewrite !mapChars_join, map_map.
    f_equal. apply (map_fixed _ lowerAlnum); [|assumption].
    apply lowerAlnum_toLowerCase_toUpperCase. }
  simpl in Hstyle.
  destruct Hstyle as [<- | [<- | [<- | [<- | [<- | []]]]]];
    unfold tokenize, format, tokenizeByCase, formatByCase,
      toSnake, toScreamingSnake, toKebab, toDot, toPath;
    rewrite ?Hscream;
    apply tokenizeSeparator_join; simpl; auto 6.
Qed.

Lemma tokenize_format_wellFormed (style : CaseType) (tokens : list string) :
  wellFormed style tokens -> tokenize (format tokens style) style = tokens.
Proof.
  destruct style; cbn [wellFormed].
  - destruct tokens as [|first others]; [contradiction|].
    intros (Hne & Hfirst & Hall). apply tokenize_toCamel; assumption.
  - intros [Hne Hall]. apply tokenize_toPascal; assumption.
  - intros [Hne Hall]. apply tokenize_format_separator; simpl; auto.
  - intros [Hne Hall]. apply tokenize_format_separator; simpl; auto.
  - intros [Hne Hall]. apply tokenize_format_separator; simpl; auto.
  - intros [Hne Hall]. apply tokenize_format_separator; simpl; auto.
  - intros [Hne Hall]. apply tokenize_format_separator; simpl; auto 6.
  - destruct tokens as [|t [|u rest]]; try contradiction. intros Ht.
    unfold tokenize, format, tokenizeByCase, formatByCase, toUpper, tokenizeFlat.
    cbn [join]. rewrite (lowerAlnum_toLowerCase_toUpperCase t Ht). reflexivity.
  - destruct tokens as [|t [|u rest]]; try contradiction. intros Ht.
    unfold tokenize, format, tokenizeByCase, formatByCase, toLower, tokenizeFlat.
    cbn [join]. rewrite !(lowerAlnum_toLowerCase t Ht). reflexivity.
Qed.

Lemma format_single_empty (to : CaseType) : format [""] to = "".
Proof. destruct to; reflexivity. Qed.

Lemma isEmpty_true (s : string) : isEmpty s = true -> s = "".
Proof. destruct s; [reflexivity | discriminate]. Qed.

Lemma createConverter_wellFormed (from to : CaseType) (tokens : list string) :
  wellFormed from tokens ->
  createConverter from to (Str (format tokens from)) = format tokens to.
Proof.
  intros Hwf. pose proof (tokenize_format_wellFormed from tokens Hwf) as Hback.
  unfold createConverter. cbn [safeString].
  destruct (isEmpty (format tokens from)) eqn:Hempty.
  - apply isEmpty_true in Hempty. rewrite Hempty in Hback.
    assert (tokens = [""]) as ->
      by (rewrite <- Hback; destruct from; reflexivity).
    symmetry. apply format_single_empty.
  - destruct (bool_decide_reflect (from = to)) as [->|_]; [reflexivity|].
    rewrite Hback. reflexivity.
Qed.

(** Formatting well-formed tokens in a style and tokenizing the result
    in the same style gives the tokens back, for each of the nine
    styles: camel and pascal need words of at least two characters that
    start with a letter, the flat styles hold a single word. *)
Theorem round_trip_well_formed (style : CaseType) (tokens : list string) :
  wellFormed style tokens -> tokenize (format tokens style) style = tokens.
Proof. apply tokenize_format_wellFormed. Qed.

Lemma round_trip_well_formed_witness :
  tokenize (format ["my"; "var2"; "name"] camel) camel = ["my"; "var2"; "name"].
Proof.
  apply (round_trip_well_formed camel ["my"; "var2"; "name"]).
  cbn [wellFormed]. split; [discriminate|].
  split; [reflexivity|]. repeat constructor.
Defined.

(** A converter applied to an identifier that is well formed in its
    source style returns the same words written in the target style,
    for every one of the 81 pairs. *)
Theorem convert_well_formed (from to : CaseType) (tokens : list string) :
  wellFormed from tokens ->
  createConverter from to (Str (format tokens from)) = format tokens to.
Proof. apply createConverter_wellFormed. Qed.

Lemma convert_well_formed_witness :
  createConverter pascal kebab (Str (format ["my"; "var2"; "name"] pascal))
  = format ["my"; "var2"; "name"] kebab.
Proof.
  apply (convert_well_formed pascal kebab ["my"; "var2"; "name"]).
  cbn [wellFormed]. split; [discriminate|]. repeat constructor.
Defined.

(** Converting an identifier to another style and back returns it
    unchanged, when its words are well formed in both styles. *)
Theorem convert_there_and_back (a b : CaseType) (tokens : list string) :
  wellFormed a tokens -> wellFormed b tokens ->
  createConverter b a (Str (createConverter a b (Str (format tokens a))))
  = format tokens a.
Proof.
  intros Ha Hb.
  rewrite (createConverter_wellFormed a b tokens Ha).
  apply (createConverter_wellFormed b a tokens Hb).
Qed.

Lemma convert_there_and_back_witness :
  createConverter camel snake
    (Str (createConverter snake camel (Str (format ["my"; "var2"; "name"] snake))))
  = format ["my"; "var2"; "name"] snake.
Proof.
  apply (convert_there_and_back snake camel ["my"; "var2"; "name"]).
  - cbn [wellFormed]. split; [discriminate|]. repeat constructor.
  - cbn [wellFormed]. split; [discriminate|].
    split; [reflexivity|]. repeat constructor.
Defined.

(** Words of one letter do not survive camel case, and neither does a
    later word that starts with a digit: the conditions of
    [wellFormed camel] are needed. *)
Example camel_round_trip_limits :
  tokenize (format ["a"; "b"; "c"] camel) camel = ["a"; "bc"] /\
  tokenize (format ["v"; "2x"] camel) camel = ["v2x"] /\
  createConverter camel snake (Str (createConverter snake camel (Str "a_b_c")))
  = "a_bc".
Proof. vm_compute. repeat split. Qed.

(** ** Casing and whitespace of the results *)

Lemma allChars_append (p : ascii -> bool) (s t : string) :
  allChars p s = true -> allChars p t = true -> allChars p (s +:+ t) = true.
Proof.
  intros Hs Ht. induction s as [|c r IH]; [exact Ht|].
  rewrite append_cons. cbn [allChars] in *.
  apply andb_true_iff in Hs as [Hc Hr]. rewrite Hc, (IH Hr). reflexivity.
Qed.

Lemma allChars_join (p : ascii -> bool) (sep : string) (tokens : list string) :
  allChars p sep = true ->
  Forall (fun t => allChars p t = true) tokens ->
  allChars p (join sep tokens) = true.
Proof.
  intros Hsep Hall. induction Hall as [|t rest Ht Hrest IH]; [reflexivity|].
  destruct rest as [|u rest']; [exact Ht|].
  rewrite join_cons_cons. auto using allChars_append.
Qed.

Lemma tokenize_no_upper (style : CaseType) (s : string) :
  Forall (fun t => allChars (fun c => negb (Char.isUpper c)) t = true)
         (tokenize s style).
Proof.
  assert (H : forall frags,
             Forall (fun t => allChars (fun c => negb (Char.isUpper c)) t = true)
                    (map toLowerCase frags)).
  { induction frags; simpl; constructor;
      [apply toLowerCase_no_upper | assumption]. }
  destruct style; unfold tokenize, tokenizeByCase, tokenizeCamelPascal,
    tokenizeSeparator, tokenizeFlat; try apply H.
  all: apply (H [s]).
Qed.

(** A conversion into snake, kebab, dot, path or lower from a different
    style returns no uppercase letter. *)
Theorem convert_to_lowercase_style (from to : CaseType) (x : NullableString) :
  In to [snake; kebab; dot; path; lower] ->
  from <> to ->
  allChars (fun c => negb (Char.isUpper c)) (createConverter from to x) = true.
Proof.
  intros Hto Hne. unfold createConverter.
  destruct (safeString x) as [|c rest]; [reflexivity|].
  cbn [isEmpty]. rewrite bool_decide_eq_false_2 by exact Hne.
  simpl in Hto.
  destruct Hto as [<- | [<- | [<- | [<- | [<- | []]]]]];
    try (apply allChars_join; [reflexivity | apply tokenize_no_upper]).
  apply toLowerCase_no_upper.
Qed.

Lemma convert_to_lowercase_style_witness :
  allChars (fun c => negb (Char.isUpper c))
    (createConverter pascal dot (Str "MyHTTPServer")) = true.
Proof.
  apply (convert_to_lowercase_style pascal dot (Str "MyHTTPServer"));
    [simpl; auto | discriminate].
Defined.

Lemma isSpace_toLower (c : ascii) :
  Char.isSpace (Char.toLower c) = Char.isSpace c.
Proof. each_ascii c; reflexivity. Qed.

Lemma splitSpace_fragments_free (s : string) :
  Forall (fun t => allChars (fun c => negb (Char.isSpace c)) t = true)
         (splitSpace s).
Proof.
  induction s as [|c rest IH]; [repeat constructor|].
  cbn [splitSpace]. destruct (Char.isSpace c) eqn:Hc.
  - constructor; [reflexivity | exact IH].
  - destruct (splitSpace rest) as [|f fs]; simpl.
    + constructor; [|constructor]. simpl. rewrite Hc. reflexivity.
    + inversion IH as [|? ? Hf Hfs]; subst. constructor; [|exact Hfs].
      simpl. rewrite Hc. exact Hf.
Qed.

(** The tokens of the camel/pascal tokenizer contain no whitespace:
    every whitespace character of the input ends a token and is dropped. *)
Theorem camel_tokens_without_whitespace (style : CaseType) (s : string) :
  In style [camel; pascal] ->
  Forall (fun t => allChars (fun c => negb (Char.isSpace c)) t = true)
         (tokenize s style).
Proof.
  intros Hstyle.
  assert (tokenize s style = tokenizeCamelPascal s) as ->
    by (destruct Hstyle as [<- | [<- | []]]; reflexivity).
  unfold tokenizeCamelPascal.
  generalize (splitSpace_fragments_free (replaceUpperWord (replaceLowerUpper s))).
  generalize (splitSpace (replaceUpperWord (replaceLowerUpper s))).
  intros frags. induction 1 as [|f fs Hf _ IH]; simpl; constructor; [|exact IH].
  unfold toLowerCase. clear -Hf.
  induction f as [|c r IHf]; [reflexivity|].
  cbn [mapChars allChars] in *. apply andb_true_iff in Hf as [Hc Hr].
  rewrite isSpace_toLower, Hc, (IHf Hr). reflexivity.
Qed.

Lemma camel_tokens_without_whitespace_witness :
  Forall (fun t => allChars (fun c => negb (Char.isSpace c)) t = true)
         (tokenize "my varName  x" camel).
Proof.
  apply (camel_tokens_without_whitespace camel "my varName  x").
  simpl. left. reflexivity.
Defined.
